(** * Import synchronisation of a flogo application project

    A shallow embedding of [api/project.go]: the project accessors,
    [Validate], [Executable], and the import synchroniser ([addImportsInGo],
    [addImportsInJson], [AddImports], [RemoveImports]).

    The project keeps two representations of its imports: the Go file
    [src/imports.go] and the import list of the descriptor [flogo.json].
    Packages the file calls but does not define ([util], [app], [go/parser],
    [go/printer], [encoding/json], [os]) are interfaces here: type classes
    whose operations the functions below are parametric in. *)

From Stdlib Require Import Ascii String.
From stdpp Require Import base strings list gmap fin_maps.

Local Open Scope string_scope.

(** ** Errors and files *)

(** A Go [error] value; [nil] is [None] of [option error]. *)
Definition error := string.

(** One path of the project directory, as the [os] calls of the file see it:
    missing ([os.IsNotExist]), present but refusing every access, or a
    regular file with its bytes, writable or read-only. *)
Inductive node :=
| NotExist
| Denied
| Regular (writable : bool) (data : string).

#[global] Instance node_eq_dec : EqDecision node.
Proof. solve_decision. Defined.

Definition ENOENT (path : string) : error := path ++ ": no such file or directory".
Definition EACCES (path : string) : error := path ++ ": permission denied".

(** [os.IsNotExist] of the error of [os.Stat]. *)
Definition statNotExist (n : node) : bool :=
  match n with NotExist => true | _ => false end.

(** Opening and reading a whole file ([os.Open] then [ioutil.ReadAll], or the
    read that [parser.ParseFile] does when its [src] argument is [nil]). *)
Definition readFile (path : string) (n : node) : string + error :=
  match n with
  | NotExist => inr (ENOENT path)
  | Denied => inr (EACCES path)
  | Regular _ data => inl data
  end.

(** Truncating and writing a whole file ([os.Create] followed by the write,
    or [ioutil.WriteFile]); a missing file is created. The write is taken as
    a whole: it happens, or the file cannot be opened for writing and stays
    as it was. A write that fails after the file has been truncated (a full
    disk, say) is outside this model, so nothing below is stated about what
    a file holds after a failed write. *)
Definition writeFile (path : string) (n : node) (data : string) : node + error :=
  match n with
  | NotExist => inl (Regular true data)
  | Denied => inr (EACCES path)
  | Regular true _ => inl (Regular true data)
  | Regular false _ => inr (EACCES path)
  end.

(** ** Package [util]: import values and the import block of a Go file *)

(** Modelled from the spec: [util.Import] and [util.NewFlogoImport], which are
    not part of this file. An import value has a module path, an optional
    relative path, an optional version and an optional alias (empty string
    when absent). *)
Record Import := NewFlogoImport {
  ModulePath : string;
  RelativeImportPath : string;
  Version : string;
  Alias : string
}.

#[global] Instance Import_eq_dec : EqDecision Import.
Proof. solve_decision. Defined.

(** The string forms of an import value, and the parser of a list of
    canonical forms. [GoImportPath_of] combines a module path and a relative
    path into the key; [ParseImports] returns the imports it read and the
    error, if any. *)
Class ImportSyntax := {
  GoImportPath_of : string → string → string;
  CanonicalImport : Import → string;
  ParseImports : list string → list Import * option error
}.

(** Modelled from the spec: [util.Import.GoImportPath], the key of an import
    value, a deterministic string combining the module path and the relative
    path. *)
Definition GoImportPath `{ImportSyntax} (i : Import) : string :=
  GoImportPath_of (ModulePath i) (RelativeImportPath i).

(** The tree [parser.ParseFile] returns in mode [parser.ImportsOnly]: the
    package clause and the paths of the import declarations. *)
Record GoFile := mkGoFile {
  PkgName : string;
  Imports : list string
}.

#[global] Instance GoFile_eq_dec : EqDecision GoFile.
Proof. solve_decision. Defined.

(** Modelled from the spec: [util.AddImport], which inserts an import path
    into the import block if it is not already present (exact match). *)
Definition AddImport (file : GoFile) (path : string) : GoFile :=
  if decide (path ∈ Imports file) then file
  else mkGoFile (PkgName file) (Imports file ++ [path]).

(** Modelled from the spec: [util.DeleteImport], which deletes every entry of
    the import block whose path matches exactly. *)
Definition DeleteImport (file : GoFile) (path : string) : GoFile :=
  mkGoFile (PkgName file) (filter (λ p, p ≠ path) (Imports file)).

(** [go/parser] and [go/printer] on the text of [imports.go].
    [printer_Fprint_nil] is the error [printer.Fprint] returns when it is
    given the nil file of a failed [os.Create]. *)
Class GoSyntax := {
  parser_ParseFile : string → GoFile + error;
  printer_Fprint : GoFile → string;
  printer_Fprint_nil : error
}.

(** [util.DepManager]: adding a dependency works on a state of its own (what
    the project requires and the module cache) and may fail. *)
Class DepManager := {
  DepState : Type;
  AddDependency : Import → DepState → option error * DepState;
  GetPath_dm : Import → DepState → string + error
}.

(** ** The descriptor *)

(** [app.Config]: the import list and the other fields (name, version,
    triggers, ...), which this file never reads. *)
Record Config (Other : Type) := mkConfig {
  CfgImports : list string;
  CfgOther : Other
}.
Arguments mkConfig {Other} _ _.
Arguments CfgImports {Other} _.
Arguments CfgOther {Other} _.

(** [encoding/json] at type [app.Config]. [json_Unmarshal data v] decodes
    into the destination [v] and returns the error with the destination as
    the decoder left it; [json_MarshalIndent] is the encoder called with the
    empty prefix and an indent of two spaces. *)
Class AppJson := {
  Other : Type;
  zeroOther : Other;
  json_Unmarshal : string → Config Other → option error * Config Other;
  json_MarshalIndent : Config Other → string + error
}.

(** The zero value of [var appDescriptor app.Config]. *)
Definition zeroConfig `{AppJson} : Config Other := mkConfig [] zeroOther.

(** ** The iteration order of a Go map *)

(** [for _, val := range m] visits the entries of a map in an order the
    runtime chooses anew each time. [shuffle rnd l] is the order chosen by
    the runtime's random draws [rnd]: each draw picks the next element among
    those left. Every order can be drawn, which is more than the runtime
    does; what is proved for all draws holds for those of the runtime. *)
Fixpoint shuffle {A} (rnd : list nat) (l : list A) : list A :=
  match rnd with
  | [] => l
  | r :: rnd' =>
      match l !! (r `mod` length l) with
      | Some x => x :: shuffle rnd' (delete (r `mod` length l) l)
      | None => l
      end
  end.

(** ** The project *)

Definition flogoCoreRepo := "github.com/project-flogo/core".
Definition fileFlogoJson := "flogo.json".
Definition fileMainGo := "main.go".
Definition fileImportsGo := "imports.go".
Definition dirSrc := "src".
Definition dirBin := "bin".

(** [path/filepath] and [runtime] of the host. *)
Class Host := {
  filepath_Join : string → string → string;
  filepath_Base : string → string;
  runtime_GOOS : string
}.

Record appProjectImpl := mkProject {
  appDir : string;
  appName : string;
  srcDir : string;
  binDir : string
}.

(** What the console shows: the warning of a skipped import (standard
    output) and the message of a failed one (standard error). *)
Inductive message :=
| Warning (i : Import)
| Failure (i : Import).

Section Project.
Context `{ImportSyntax, GoSyntax, DepManager, AppJson, Host}.

(** The state the project's methods work on: the four paths [Validate]
    looks at, the state of the dependency manager [p.dm] and the console.
    [srcDirNode] and [goMod] stand for what [os.Stat] answers in [Validate]
    and for nothing else. *)
Record World := mkWorld {
  flogoJson : node;
  srcDirNode : node;
  importsGo : node;
  goMod : node;
  deps : DepState;
  console : list message
}.

Definition set_flogoJson (n : node) (w : World) : World :=
  mkWorld n (srcDirNode w) (importsGo w) (goMod w) (deps w) (console w).
Definition set_importsGo (n : node) (w : World) : World :=
  mkWorld (flogoJson w) (srcDirNode w) n (goMod w) (deps w) (console w).
Definition set_deps (d : DepState) (w : World) : World :=
  mkWorld (flogoJson w) (srcDirNode w) (importsGo w) (goMod w) d (console w).
Definition print (m : message) (w : World) : World :=
  mkWorld (flogoJson w) (srcDirNode w) (importsGo w) (goMod w) (deps w) (console w ++ [m]).

Definition NewAppProject (appDir : string) : appProjectImpl :=
  mkProject appDir (filepath_Base appDir)
            (filepath_Join appDir dirSrc) (filepath_Join appDir dirBin).

Definition Validate (p : appProjectImpl) (w : World) : option error :=
  if statNotExist (flogoJson w) then
    Some "not a valid flogo app project directory, missing flogo.json"
  else if statNotExist (srcDirNode w) then
    Some "not a valid flogo app project directory, missing 'src' diretory"
  else if statNotExist (importsGo w) then
    Some "flogo app directory corrupt, missing 'src/imports.go' file"
  else if statNotExist (goMod w) then
    Some "flogo app directory corrupt, missing 'src/go.mod' file"
  else None.

Definition Name (p : appProjectImpl) : string := appName p.
Definition Dir (p : appProjectImpl) : string := appDir p.
Definition BinDir (p : appProjectImpl) : string := binDir p.
Definition SrcDir (p : appProjectImpl) : string := srcDir p.

(** [GOOSENV] is the package variable read from the environment variable
    [GOOS] when the program starts. *)
Definition Executable (GOOSENV : string) (p : appProjectImpl) : string :=
  if decide (GOOSENV = "windows" ∨ (runtime_GOOS = "windows" ∧ GOOSENV = ""))
  then filepath_Join (binDir p) (appName p ++ ".exe")
  else filepath_Join (binDir p) (appName p).

Definition GetPath (p : appProjectImpl) (flogoImport : Import) (w : World) : string + error :=
  GetPath_dm flogoImport (deps w).

(** *** The Go side *)

Definition importsFile (p : appProjectImpl) : string :=
  filepath_Join (SrcDir p) fileImportsGo.

(** [parser.ParseFile(fset, importsFile, nil, parser.ImportsOnly)]: read the
    file, then parse its text. *)
Definition parseImportsFile (p : appProjectImpl) (w : World) : GoFile + error :=
  match readFile (importsFile p) (importsGo w) with
  | inr err => inr err
  | inl src => parser_ParseFile src
  end.

(** [os.Create] then [printer.Fprint]: the error of [os.Create] is dropped,
    and printing to the file it did not open returns the printer's error. *)
Definition printImportsFile (p : appProjectImpl) (file : GoFile) (w : World)
  : option error * World :=
  match writeFile (importsFile p) (importsGo w) (printer_Fprint file) with
  | inr _ => (Some printer_Fprint_nil, w)
  | inl n => (None, set_importsGo n w)
  end.

(** The loop of [addImportsInGo] over the imports, on the parsed tree. *)
Fixpoint addImportsLoop (ignoreError : bool) (imports : list Import)
    (file : GoFile) (w : World) : (GoFile + error) * World :=
  match imports with
  | [] => (inl file, w)
  | i :: rest =>
      let '(err, d) := AddDependency i (deps w) in
      let w := set_deps d w in
      match err with
      | Some e =>
          if ignoreError then addImportsLoop ignoreError rest file (print (Warning i) w)
          else (inr e, print (Failure i) w)
      | None => addImportsLoop ignoreError rest (AddImport file (GoImportPath i)) w
      end
  end.

Definition addImportsInGo (p : appProjectImpl) (ignoreError : bool)
    (imports : list Import) (w : World) : option error * World :=
  match parseImportsFile p w with
  | inr err => (Some err, w)
  | inl file =>
      match addImportsLoop ignoreError imports file w with
      | (inr err, w) => (Some err, w)
      | (inl file, w) => printImportsFile p file w
      end
  end.

(** *** The descriptor side *)

Definition appDescriptorFile (p : appProjectImpl) : string :=
  filepath_Join (appDir p) fileFlogoJson.

(** The first loop of [addImportsInJson]: the imports of the descriptor by
    key, a later entry replacing an earlier one of the same key. *)
Definition listExisting (jsonImports : list Import) : gmap string Import :=
  foldl (λ existingImports e, <[GoImportPath e := e]> existingImports) ∅ jsonImports.

(** The body of the second loop of [addImportsInJson] for one import [i]. *)
Definition mergeImport (existingImports : gmap string Import) (i : Import)
  : gmap string Import :=
  match existingImports !! GoImportPath i with
  | None => <[GoImportPath i := i]> existingImports
  | Some val =>
      if decide (CanonicalImport i ≠ CanonicalImport val) then
        let existingImports := delete (GoImportPath val) existingImports in
        let alias :=
          if decide (Alias val ≠ "" ∧ Alias i = "") then Alias val else Alias i in
        <[GoImportPath i :=
            NewFlogoImport (ModulePath i) (RelativeImportPath i) (Version i) alias]>
          existingImports
      else existingImports
  end.

Definition mergeImports (existingImports : gmap string Import)
    (imports : list Import) : gmap string Import :=
  foldl mergeImport existingImports imports.

(** [for _, val := range existingImports]: the values in the order the
    runtime draws. *)
Definition rangeValues (rnd : list nat) (m : gmap string Import) : list Import :=
  shuffle rnd (map_to_list m).*2.

(** The descriptor as [addImportsInJson] decodes it: the error of
    [json.Unmarshal] is dropped and the destination used as it is. *)
Definition decodeDescriptor (appDescriptorData : string) : Config Other :=
  (json_Unmarshal appDescriptorData zeroConfig).2.

(** The map of imports after both loops; the error of [util.ParseImports]
    is dropped. *)
Definition mergedImports (appDescriptor : Config Other) (imports : list Import)
  : gmap string Import :=
  mergeImports (listExisting (ParseImports (CfgImports appDescriptor)).1) imports.

(** The descriptor that is written back: the import list rebuilt from the
    map, every other field as decoded. *)
Definition updatedDescriptor (rnd : list nat) (appDescriptor : Config Other)
    (imports : list Import) : Config Other :=
  let newImport := CanonicalImport <$> rangeValues rnd (mergedImports appDescriptor imports) in
  mkConfig newImport (CfgOther appDescriptor).

Definition addImportsInJson (p : appProjectImpl) (rnd : list nat) (ignoreError : bool)
    (imports : list Import) (w : World) : option error * World :=
  match readFile (appDescriptorFile p) (flogoJson w) with
  | inr err => (Some err, w)
  | inl appDescriptorData =>
      let appDescriptor := decodeDescriptor appDescriptorData in
      let appDescriptor := updatedDescriptor rnd appDescriptor imports in
      match json_MarshalIndent appDescriptor with
      | inr err => (Some err, w)
      | inl appDescriptorUpdatedJson =>
          match writeFile (appDescriptorFile p) (flogoJson w) appDescriptorUpdatedJson with
          | inr err => (Some err, w)
          | inl n => (None, set_flogoJson n w)
          end
      end
  end.

(** *** The synchroniser *)

Definition AddImports (p : appProjectImpl) (rnd : list nat) (ignoreError : bool)
    (imports : list Import) (w : World) : option error * World :=
  match addImportsInGo p ignoreError imports w with
  | (Some err, w) => (Some err, w)
  | (None, w) => addImportsInJson p rnd ignoreError imports w
  end.

Definition RemoveImports (p : appProjectImpl) (imports : list string) (w : World)
  : option error * World :=
  match parseImportsFile p w with
  | inr err => (Some err, w)
  | inl file => printImportsFile p (foldl DeleteImport file imports) w
  end.

(** *** The two import lists, as the code reads them *)

(** The paths of the import block of [imports.go]; none when the file does
    not parse. *)
Definition sourceImports (p : appProjectImpl) (w : World) : list string :=
  match parseImportsFile p w with
  | inl file => Imports file
  | inr _ => []
  end.

(** The descriptor of [flogo.json] as decoded; none when the file cannot be
    read. *)
Definition descriptor (p : appProjectImpl) (w : World) : option (Config Other) :=
  match readFile (appDescriptorFile p) (flogoJson w) with
  | inl appDescriptorData => Some (decodeDescriptor appDescriptorData)
  | inr _ => None
  end.

(** The import values of the import list of [flogo.json]. *)
Definition manifestImports (p : appProjectImpl) (w : World) : list Import :=
  match descriptor p w with
  | Some appDescriptor => (ParseImports (CfgImports appDescriptor)).1
  | None => []
  end.

(** *** Auxiliary notions for the statements *)

(** Every value of the map sits at its own key. *)
Definition keyed (m : gmap string Import) : Prop :=
  ∀ k v, m !! k = Some v → GoImportPath v = k.

(** The value [addImportsInJson] stores for [i] when the key is taken by [val] with another
    canonical form: the fields of [i], and the alias of [val] when [i] has
    none. *)
Definition merged (i val : Import) : Import :=
  NewFlogoImport (ModulePath i) (RelativeImportPath i) (Version i)
    (if decide (Alias i = "" ∧ Alias val ≠ "") then Alias val else Alias i).

End Project.

(** Modelled from the spec: [util.ParseImports] as a best-effort parse of the
    descriptor's import list. An entry the single-entry parser rejects is
    simply absent from the result; the first error is returned beside it. *)
Definition ParseImports_lenient (ParseImport : string → Import + error)
    (flogoImports : list string) : list Import * option error :=
  (omap (λ s, match ParseImport s with inl i => Some i | inr _ => None end) flogoImports,
   head (omap (λ s, match ParseImport s with inl _ => None | inr e => Some e end) flogoImports)).

(** ** A concrete environment

    Small stand-ins for the collaborators, on which the functions above can
    be run: a line-based text format for both files, a dependency manager
    that knows one unreachable module, and a Unix host. *)
Module Demo.

Definition nl : string := String (ascii_of_nat 10) "".

(** The text before the first occurrence of [c] and the text after it. *)
Fixpoint cut (c : ascii) (s : string) : option (string * string) :=
  match s with
  | EmptyString => None
  | String a s' =>
      if decide (a = c) then Some ("", s')
      else match cut c s' with
           | Some (x, y) => Some (String a x, y)
           | None => None
           end
  end.

(** The lines of a text, each one ended by a newline. *)
Fixpoint lines_from (cur : string) (s : string) : list string :=
  match s with
  | EmptyString => if decide (cur = "") then [] else [cur]
  | String a s' =>
      if decide (a = ascii_of_nat 10) then cur :: lines_from "" s'
      else lines_from (cur ++ String a "") s'
  end.
Definition lines (s : string) : list string := lines_from "" s.
Definition unlines (l : list string) : string :=
  foldr (λ x acc, x ++ nl ++ acc) "" l.

Definition canonical (i : Import) : string :=
  (if decide (Alias i = "") then "" else Alias i ++ " ")
  ++ ModulePath i
  ++ (if decide (Version i = "") then "" else "@" ++ Version i)
  ++ (if decide (RelativeImportPath i = "") then "" else ":" ++ RelativeImportPath i).

Definition parseImport (s : string) : Import + error :=
  let '(alias, s) := default ("", s) (cut " " s) in
  let '(s, rel) := default (s, "") (cut ":" s) in
  let '(mp, ver) := default (s, "") (cut "@" s) in
  if decide (mp = "") then inr ("invalid import: " ++ s)
  else inl (NewFlogoImport mp rel ver alias).

#[export] Instance imports : ImportSyntax := {
  GoImportPath_of mp rel := mp ++ rel;
  CanonicalImport := canonical;
  ParseImports := ParseImports_lenient parseImport
}.

#[export] Instance gosyntax : GoSyntax := {
  parser_ParseFile src :=
    match lines src with
    | [] => inr "imports.go:1:1: expected 'package', found 'EOF'"
    | name :: paths => inl (mkGoFile name paths)
    end;
  printer_Fprint file := unlines (PkgName file :: Imports file);
  printer_Fprint_nil := "invalid argument"
}.

Definition unreachable : string := "github.com/acme/unreachable".

#[export] Instance depmanager : DepManager := {
  DepState := list string;
  AddDependency i d :=
    if decide (ModulePath i = unreachable)
    then (Some ("module " ++ unreachable ++ ": not found"), d)
    else (None, (d ++ [ModulePath i])%list);
  GetPath_dm i d :=
    if decide (ModulePath i ∈ d) then inl ("/go/pkg/mod/" ++ GoImportPath i)
    else inr ("module " ++ ModulePath i ++ ": not required")
}.

(** A line that starts with [#] stands for a key of the document that
    [app.Config] does not declare: the decoder skips it, as [encoding/json]
    skips a key without a field. *)
Definition undeclared (line : string) : bool :=
  match line with
  | String "#" _ => true
  | _ => false
  end.

#[export] Instance appjson : AppJson := {
  Other := string;
  zeroOther := "";
  json_Unmarshal data v :=
    match lines data with
    | [] => (Some "unexpected end of JSON input", v)
    | name :: rest => (None, mkConfig (filter (λ line, undeclared line = false) rest) name)
    end;
  json_MarshalIndent v := inl (unlines (CfgOther v :: CfgImports v))
}.

(** The last element of a path. *)
Fixpoint base_from (cur : string) (s : string) : string :=
  match s with
  | EmptyString => cur
  | String a s' =>
      if decide (a = "/"%char) then base_from "" s' else base_from (cur ++ String a "") s'
  end.

#[export] Instance host : Host := {
  filepath_Join a b := a ++ "/" ++ b;
  filepath_Base := base_from "";
  runtime_GOOS := "linux"
}.

Definition project : appProjectImpl := NewAppProject "/work/app".

Definition i_log : Import :=
  NewFlogoImport "github.com/project-flogo/contrib" "/activity/log" "v0.9.0" "".
Definition i_rest : Import :=
  NewFlogoImport "github.com/project-flogo/contrib" "/trigger/rest" "" "rt".
Definition i_bad : Import :=
  NewFlogoImport unreachable "/activity/x" "v1.0.0" "".

(** A valid project: a descriptor named [app] with one import, and an
    [imports.go] with the core import. *)
Definition world0 : World :=
  mkWorld (Regular true (unlines ["app"; "github.com/project-flogo/core"]))
          (Regular true "")
          (Regular true (unlines ["main"; "github.com/project-flogo/core"]))
          (Regular true "module main")
          [] [].

Definition core : string := "github.com/project-flogo/core".

(** The descriptor of [world0]. *)
Definition config0 : Config Other := @mkConfig Other [core] "app".

(** An [imports.go] without a package clause does not parse. *)
Definition world_bad_go : World :=
  mkWorld (flogoJson world0) (srcDirNode world0) (Regular true "") (goMod world0) [] [].

(** A descriptor whose import list holds an entry without module path. *)
Definition world_bad_entry : World :=
  mkWorld (Regular true (unlines ["app"; "@v1.0.0"; core]))
          (srcDirNode world0) (importsGo world0) (goMod world0) [] [].

(** A project without descriptor. *)
Definition world_no_json : World :=
  mkWorld NotExist (srcDirNode world0) (importsGo world0) (goMod world0) [] [].


(** [imports.go] read-only; [flogo.json] present but closed to every
    access; a descriptor with a key that [app.Config] does not declare. *)
Definition world_read_only_go : World :=
  mkWorld (flogoJson world0) (srcDirNode world0)
          (Regular false (unlines ["main"; core])) (goMod world0) [] [].
Definition world_denied_json : World :=
  mkWorld Denied (srcDirNode world0) (importsGo world0) (goMod world0) [] [].
Definition world_extra_key : World :=
  mkWorld (Regular true (unlines ["app"; "#owner=alice"; core]))
          (srcDirNode world0) (importsGo world0) (goMod world0) [] [].

End Demo.


(** * Properties *)

Section Facts.
Context `{!ImportSyntax, !GoSyntax, !DepManager, !AppJson, !Host}.
Implicit Types (p : appProjectImpl) (w : World) (i : Import) (file : GoFile).
Implicit Types (imports : list Import) (m : gmap string Import).

(** ** The Go side leaves the descriptor alone *)

Lemma addImportsLoop_files ignoreError imports file w :
  let w' := (addImportsLoop ignoreError imports file w).2 in
  flogoJson w' = flogoJson w ∧ importsGo w' = importsGo w.
Proof.
  revert file w. induction imports as [|i rest IH]; intros file w; simpl; [done|].
  destruct (AddDependency i (deps w)) as [[e|] d] eqn:E.
  - destruct ignoreError; simpl; [|done].
    destruct (IH file (print (Warning i) (set_deps d w))) as (?&?). done.
  - destruct (IH (AddImport file (GoImportPath i)) (set_deps d w)) as (?&?). done.
Qed.

Lemma printImportsFile_flogoJson p file w :
  flogoJson (printImportsFile p file w).2 = flogoJson w.
Proof.
  unfold printImportsFile. by destruct (writeFile _ _ _).
Qed.

Lemma addImportsInGo_flogoJson p ignoreError imports w :
  flogoJson (addImportsInGo p ignoreError imports w).2 = flogoJson w.
Proof.
  unfold addImportsInGo. destruct (parseImportsFile p w) as [file|e]; [|done].
  pose proof (addImportsLoop_files ignoreError imports file w) as (Hj&_).
  destruct (addImportsLoop ignoreError imports file w) as [[file'|e] w']; simpl in *; [|done].
  by rewrite printImportsFile_flogoJson.
Qed.




(** C7. If [imports.go] does not parse (or cannot be read), [AddImports] and
    [RemoveImports] both return that error at once, with nothing written:
    the world, and so both files, is as before. *)
Theorem parse_failure_aborts p rnd ignoreError imports keys w err :
  parseImportsFile p w = inr err →
  AddImports p rnd ignoreError imports w = (Some err, w) ∧
  RemoveImports p keys w = (Some err, w).
Proof.
  intros Hparse. unfold AddImports, addImportsInGo, RemoveImports.
  by rewrite Hparse.
Qed.

(** ** Removal *)

Lemma foldl_DeleteImport file keys :
  foldl DeleteImport file keys =
  mkGoFile (PkgName file) (filter (λ k, k ∉ keys) (Imports file)).
Proof.
  revert file. induction keys as [|k keys IH]; intros [name imps]; simpl.
  - f_equal. induction imps as [|x imps IHi]; [done|].
    rewrite filter_cons_True; [by f_equal|]. apply not_elem_of_nil.
  - rewrite IH. simpl. f_equal. rewrite list_filter_filter.
    apply list_filter_iff. intros x. rewrite not_elem_of_cons. tauto.
Qed.


Lemma printImportsFile_twice p file w w1 :
  printImportsFile p file w = (None, w1) →
  printImportsFile p file w1 = (None, w1) ∧
  importsGo w1 = Regular true (printer_Fprint file).
Proof.
  unfold printImportsFile.
  destruct (importsGo w) as [| |[] data] eqn:E; simpl; intros [= <-]; simpl; done.
Qed.


(** ** The order a map is ranged over *)

Lemma shuffle_Permutation {A} (rnd : list nat) (l : list A) : shuffle rnd l ≡ₚ l.
Proof.
  revert l. induction rnd as [|r rnd IH]; intros l; simpl; [done|].
  destruct (l !! (r `mod` length l)) as [x|] eqn:E; [|done].
  rewrite IH. symmetry. by apply delete_Permutation.
Qed.

Lemma rangeValues_Permutation rnd m : rangeValues rnd m ≡ₚ (map_to_list m).*2.
Proof. apply shuffle_Permutation. Qed.

Lemma elem_of_rangeValues rnd m v :
  v ∈ rangeValues rnd m ↔ ∃ k, m !! k = Some v.
Proof.
  rewrite rangeValues_Permutation, list_elem_of_fmap. split.
  - intros ([k v'] & -> & Hin). exists k. by apply elem_of_map_to_list.
  - intros (k & Hk). exists (k, v). split; [done|]. by apply elem_of_map_to_list.
Qed.

(** ** The map of imports *)

Lemma keyed_empty : keyed ∅.
Proof. intros k v. by rewrite lookup_empty. Qed.

Lemma keyed_insert m v : keyed m → keyed (<[GoImportPath v := v]> m).
Proof.
  intros Hm k v'. rewrite lookup_insert. case_decide; [by intros [= <-]|]. apply Hm.
Qed.

Lemma keyed_delete m k : keyed m → keyed (delete k m).
Proof.
  intros Hm k' v'. rewrite lookup_delete. case_decide; [done|]. apply Hm.
Qed.

Lemma keyed_listExisting jsonImports : keyed (listExisting jsonImports).
Proof.
  unfold listExisting. generalize (∅ : gmap string Import), keyed_empty.
  induction jsonImports as [|e l IH]; intros m Hm; simpl; [done|].
  apply IH. by apply keyed_insert.
Qed.

Lemma keyed_mergeImport m i : keyed m → keyed (mergeImport m i).
Proof.
  intros Hm. unfold mergeImport.
  destruct (m !! GoImportPath i) as [val|] eqn:E; [|by apply keyed_insert].
  case_decide; [|done].
  set (v := NewFlogoImport _ _ _ _).
  change (GoImportPath i) with (GoImportPath v).
  apply keyed_insert. by apply keyed_delete.
Qed.

Lemma keyed_mergeImports m imports : keyed m → keyed (mergeImports m imports).
Proof.
  revert m. induction imports as [|i l IH]; intros m Hm; simpl; [done|].
  apply IH. by apply keyed_mergeImport.
Qed.

Lemma keyed_mergedImports (appDescriptor : Config Other) imports :
  keyed (mergedImports appDescriptor imports).
Proof. apply keyed_mergeImports, keyed_listExisting. Qed.

(** The values of a keyed map have pairwise different keys, in whatever
    order they are ranged over. *)
Lemma keyed_rangeValues_keys rnd m :
  keyed m → GoImportPath <$> rangeValues rnd m ≡ₚ (map_to_list m).*1.
Proof.
  intros Hm. rewrite rangeValues_Permutation.
  rewrite <-list_fmap_compose. apply reflexive_eq, list_fmap_ext.
  intros j [k v] Hin%list_elem_of_lookup_2%elem_of_map_to_list. simpl. by apply Hm.
Qed.

Lemma keyed_rangeValues_NoDup rnd m :
  keyed m → NoDup (GoImportPath <$> rangeValues rnd m).
Proof.
  intros Hm. rewrite keyed_rangeValues_keys by done. apply NoDup_fst_map_to_list.
Qed.

(** ** Merging one import *)

Lemma mergeImport_fresh m i :
  m !! GoImportPath i = None → mergeImport m i = <[GoImportPath i := i]> m.
Proof. intros E. unfold mergeImport. by rewrite E. Qed.

Lemma mergeImport_same_canonical m i val :
  m !! GoImportPath i = Some val → CanonicalImport i = CanonicalImport val →
  mergeImport m i = m.
Proof. intros E Hc. unfold mergeImport. rewrite E. by rewrite decide_False by auto. Qed.

Lemma mergeImport_replace m i val :
  m !! GoImportPath i = Some val → CanonicalImport i ≠ CanonicalImport val →
  mergeImport m i = <[GoImportPath i := merged i val]> (delete (GoImportPath val) m).
Proof.
  intros E Hc. unfold mergeImport, merged. rewrite E, decide_True by done.
  do 2 f_equal. repeat case_decide; tauto || done.
Qed.

(** C4. Merging [i] over an entry [current] of the same key with a
    different canonical form stores the module path, relative path and
    version of [i]; the alias is that of [i], unless [i] has none and
    [current] has one, which is then kept. So [m@v2] without alias over
    [m@v1] with alias [a] gives [m@v2] with alias [a]. *)
Theorem mergeImport_alias_carry_over m i current :
  m !! GoImportPath i = Some current →
  CanonicalImport i ≠ CanonicalImport current →
  mergeImport m i !! GoImportPath i =
    Some (NewFlogoImport (ModulePath i) (RelativeImportPath i) (Version i)
            (if decide (Alias i = "" ∧ Alias current ≠ "")
             then Alias current else Alias i)) ∧
  (i = NewFlogoImport "m" "" "v2" "" →
   current = NewFlogoImport "m" "" "v1" "a" →
   mergeImport m i !! GoImportPath i = Some (NewFlogoImport "m" "" "v2" "a")).
Proof.
  intros E Hc. rewrite (mergeImport_replace m i current E Hc), lookup_insert_eq.
  split; [done|]. by intros -> ->.
Qed.

Lemma mergeImport_other m i k :
  keyed m → k ≠ GoImportPath i → mergeImport m i !! k = m !! k.
Proof.
  intros Hm Hk. unfold mergeImport.
  destruct (m !! GoImportPath i) as [val|] eqn:E.
  - case_decide; [|done]. rewrite (Hm _ _ E).
    rewrite lookup_insert_ne, lookup_delete_ne by done. done.
  - by rewrite lookup_insert_ne.
Qed.

Lemma mergeImport_is_Some m i : is_Some (mergeImport m i !! GoImportPath i).
Proof.
  unfold mergeImport. destruct (m !! GoImportPath i) as [val|] eqn:E.
  - case_decide; [|by rewrite E]. by rewrite lookup_insert_eq.
  - by rewrite lookup_insert_eq.
Qed.

Lemma dom_mergeImport m i :
  keyed m → dom (mergeImport m i) = {[GoImportPath i]} ∪ dom m.
Proof.
  intros Hm. apply set_eq. intros k.
  rewrite elem_of_union, elem_of_singleton, !elem_of_dom.
  destruct (decide (k = GoImportPath i)) as [->|Hk].
  - pose proof (mergeImport_is_Some m i). tauto.
  - rewrite mergeImport_other by done. tauto.
Qed.

Lemma dom_mergeImports m imports :
  keyed m →
  dom (mergeImports m imports) = list_to_set (GoImportPath <$> imports) ∪ dom m.
Proof.
  revert m. induction imports as [|i l IH]; intros m Hm; simpl.
  - set_solver.
  - rewrite IH by (by apply keyed_mergeImport). rewrite dom_mergeImport by done.
    set_solver.
Qed.

(** Merging the same import a second time changes nothing. *)
Lemma mergeImport_idemp m i : mergeImport (mergeImport m i) i = mergeImport m i.
Proof.
  destruct (m !! GoImportPath i) as [val|] eqn:E.
  - destruct (decide (CanonicalImport i = CanonicalImport val)) as [Hc|Hc].
    + rewrite (mergeImport_same_canonical m i val E Hc).
      by apply mergeImport_same_canonical with val.
    + rewrite (mergeImport_replace m i val E Hc).
      set (m' := <[_ := _]> _).
      assert (m' !! GoImportPath i = Some (merged i val)) as E'
        by apply lookup_insert_eq.
      destruct (decide (CanonicalImport i = CanonicalImport (merged i val))) as [Hc'|Hc'].
      * by apply mergeImport_same_canonical with (merged i val).
      * rewrite (mergeImport_replace m' i _ E' Hc').
        change (GoImportPath (merged i val)) with (GoImportPath i).
        unfold m'. rewrite delete_insert_eq, insert_delete_eq. f_equal.
        unfold merged; simpl. f_equal. repeat case_decide; tauto || done.
  - rewrite (mergeImport_fresh m i E).
    apply mergeImport_same_canonical with i; [apply lookup_insert_eq|done].
Qed.

(** ** The descriptor side *)

Lemma addImportsInJson_success p rnd ignoreError imports w w' :
  addImportsInJson p rnd ignoreError imports w = (None, w') →
  ∃ data s,
    readFile (appDescriptorFile p) (flogoJson w) = inl data ∧
    json_MarshalIndent (updatedDescriptor rnd (decodeDescriptor data) imports) = inl s ∧
    w' = set_flogoJson (Regular true s) w.
Proof.
  unfold addImportsInJson.
  destruct (readFile _ (flogoJson w)) as [data|e] eqn:Er; [|done].
  destruct (json_MarshalIndent _) as [s|e] eqn:Em; [|done].
  destruct (flogoJson w) as [| |[] old]; simpl in *; try done.
  intros [= <-]. by exists data, s.
Qed.

Lemma addImportsInJson_writes p rnd ignoreError imports w data s :
  flogoJson w = Regular true data →
  json_MarshalIndent (updatedDescriptor rnd (decodeDescriptor data) imports) = inl s →
  addImportsInJson p rnd ignoreError imports w = (None, set_flogoJson (Regular true s) w).
Proof.
  intros Hj Hm. unfold addImportsInJson. rewrite Hj. simpl. by rewrite Hm.
Qed.

(** C5. After a successful [addImportsInJson] the import list written to
    [flogo.json] is the list of canonical forms of import values whose keys
    are pairwise different, whatever the descriptor held before and whatever
    the batch. *)
Theorem addImportsInJson_keys_unique p rnd ignoreError imports w w' :
  addImportsInJson p rnd ignoreError imports w = (None, w') →
  ∃ vals other s,
    flogoJson w' = Regular true s ∧
    json_MarshalIndent (mkConfig (CanonicalImport <$> vals) other) = inl s ∧
    NoDup (GoImportPath <$> vals).
Proof.
  intros (data & s & Hr & Hm & ->)%addImportsInJson_success.
  exists (rangeValues rnd (mergedImports (decodeDescriptor data) imports)),
         (CfgOther (decodeDescriptor data)), s.
  split; [done|]. split; [done|].
  apply keyed_rangeValues_NoDup, keyed_mergedImports.
Qed.

(** Entries the single-entry parser rejects do not reach the result of the
    best-effort parse. *)
Lemma ParseImports_lenient_skip ParseImport l1 bad l2 e :
  ParseImport bad = inr e →
  (ParseImports_lenient ParseImport (l1 ++ bad :: l2)).1 =
  (ParseImports_lenient ParseImport (l1 ++ l2)).1.
Proof.
  intros Hbad. unfold ParseImports_lenient; simpl.
  rewrite !omap_app. simpl. by rewrite Hbad.
Qed.

(** C8. [addImportsInJson] returns an error, and so does [AddImports], when
    [flogo.json] is missing or cannot be read. A malformed entry of the
    descriptor's import list does not stop it: with the best-effort parse the
    entry counts as absent, the error of the parse is dropped, and the call
    succeeds whenever the descriptor can be encoded and written. *)
Theorem addImportsInJson_failure_modes p rnd ignoreError imports w :
  (flogoJson w = NotExist ∨ flogoJson w = Denied →
   (∃ err, addImportsInJson p rnd ignoreError imports w = (Some err, w)) ∧
   ∃ err, (AddImports p rnd ignoreError imports w).1 = Some err) ∧
  (∀ ParseImport l1 bad l2 e other data s,
     ParseImports = ParseImports_lenient ParseImport →
     ParseImport bad = inr e →
     flogoJson w = Regular true data →
     decodeDescriptor data = mkConfig (l1 ++ bad :: l2) other →
     json_MarshalIndent (updatedDescriptor rnd (mkConfig (l1 ++ l2) other) imports) = inl s →
     addImportsInJson p rnd ignoreError imports w =
       (None, set_flogoJson (Regular true s) w)).
Proof.
  split.
  - intros Hj.
    assert (∀ w0, flogoJson w0 = flogoJson w →
              ∃ err, addImportsInJson p rnd ignoreError imports w0 = (Some err, w0)) as Hfail.
    { intros w0 E. unfold addImportsInJson. rewrite E.
      destruct Hj as [-> | ->]; simpl; by eexists. }
    split; [by apply Hfail|].
    unfold AddImports.
    pose proof (addImportsInGo_flogoJson p ignoreError imports w) as Hgo.
    destruct (addImportsInGo p ignoreError imports w) as [[e|] w1]; simpl in *.
    + by eexists.
    + destruct (Hfail w1 Hgo) as [err ->]. by eexists.
  - intros ParseImport l1 bad l2 e other data s HP Hbad Hj Hd Hm.
    apply addImportsInJson_writes with data; [done|].
    rewrite <-Hm. f_equal. rewrite Hd.
    unfold updatedDescriptor, mergedImports; simpl.
    by rewrite HP, (ParseImports_lenient_skip _ _ _ _ e Hbad).
Qed.

(** C9 (amended). An [AddImports] that returns no error rebuilds
    [flogo.json] from the decoded descriptor alone: the file holds the
    encoding of the descriptor as decoded before the call, with the import
    list replaced. So every field that the decoder keeps in the descriptor,
    other than the import list, has afterwards the value it had before,
    provided the decoder reads back what the encoder wrote; nothing is said
    of content of the file that the decoder does not keep. [RemoveImports]
    leaves the descriptor as it is. *)
Theorem declared_fields_preserved p rnd ignoreError imports keys w w' c :
  descriptor p w = Some c →
  AddImports p rnd ignoreError imports w = (None, w') →
  (∀ s, json_MarshalIndent (updatedDescriptor rnd c imports) = inl s →
        decodeDescriptor s = updatedDescriptor rnd c imports) →
  (∃ s, flogoJson w' = Regular true s ∧
        json_MarshalIndent (updatedDescriptor rnd c imports) = inl s) ∧
  (∃ c', descriptor p w' = Some c' ∧ CfgOther c' = CfgOther c) ∧
  descriptor p (RemoveImports p keys w).2 = Some c.
Proof.
  intros Hc Hcall Hback.
  assert (descriptor p (RemoveImports p keys w).2 = Some c) as Hrm.
  { unfold descriptor in *.
    assert (flogoJson (RemoveImports p keys w).2 = flogoJson w) as ->; [|done].
    unfold RemoveImports. destruct (parseImportsFile p w); [|done].
    apply printImportsFile_flogoJson. }
  unfold AddImports in Hcall.
  pose proof (addImportsInGo_flogoJson p ignoreError imports w) as Hgo.
  destruct (addImportsInGo p ignoreError imports w) as [[e|] w1]; [done|]. simpl in Hgo.
  apply addImportsInJson_success in Hcall as (data & s & Hr & Hm & ->).
  unfold descriptor in Hc. rewrite <-Hgo, Hr in Hc. injection Hc as <-.
  split; [by exists s|]. split; [|done].
  unfold descriptor. simpl. eexists. split; [done|]. by rewrite (Hback s Hm).
Qed.


(** ** Ignore mode *)

Lemma elem_of_AddImport file path x :
  x ∈ Imports (AddImport file path) ↔ x ∈ Imports file ∨ x = path.
Proof.
  unfold AddImport. case_decide; simpl.
  - split; [by left|]. by intros [?| ->].
  - rewrite elem_of_app, list_elem_of_singleton. tauto.
Qed.

Lemma keyed_rangeValues_dom rnd m k :
  keyed m → k ∈ GoImportPath <$> rangeValues rnd m ↔ k ∈ dom m.
Proof.
  intros Hm. rewrite keyed_rangeValues_keys by done.
  rewrite elem_of_dom, list_elem_of_fmap. split.
  - intros ([k' v] & -> & Hin%elem_of_map_to_list). by exists v.
  - intros [v Hv]. exists (k, v). split; [done|]. by apply elem_of_map_to_list.
Qed.

Lemma batch_keys_in_descriptor rnd (appDescriptor : Config Other) imports i :
  i ∈ imports →
  GoImportPath i ∈ GoImportPath <$> rangeValues rnd (mergedImports appDescriptor imports).
Proof.
  intros Hi. apply keyed_rangeValues_dom; [apply keyed_mergedImports|].
  unfold mergedImports. rewrite dom_mergeImports by apply keyed_listExisting.
  apply elem_of_union_l, elem_of_list_to_set, list_elem_of_fmap. by exists i.
Qed.

(** C2 (amended). In ignore mode, with [i1] resolving and [i2] failing,
    [AddImports] returns no error when both files can be read and written
    and the descriptor encoded. Afterwards [i1] is in the import block of
    [imports.go] and its key is in the import list of [flogo.json]; [i2] is
    not added to [imports.go] (a warning is printed), but its key is in the
    import list of [flogo.json] all the same, since the descriptor side
    merges the whole batch. *)
Theorem AddImports_ignore_mode p rnd i1 i2 w src file data d1 e2 d2 s :
  importsGo w = Regular true src →
  parser_ParseFile src = inl file →
  flogoJson w = Regular true data →
  AddDependency i1 (deps w) = (None, d1) →
  AddDependency i2 d1 = (Some e2, d2) →
  json_MarshalIndent (updatedDescriptor rnd (decodeDescriptor data) [i1; i2]) = inl s →
  let file' := AddImport file (GoImportPath i1) in
  let vals := rangeValues rnd (mergedImports (decodeDescriptor data) [i1; i2]) in
  AddImports p rnd true [i1; i2] w =
    (None, mkWorld (Regular true s) (srcDirNode w)
                   (Regular true (printer_Fprint file')) (goMod w) d2
                   (console w ++ [Warning i2])) ∧
  updatedDescriptor rnd (decodeDescriptor data) [i1; i2] =
    mkConfig (CanonicalImport <$> vals) (CfgOther (decodeDescriptor data)) ∧
  GoImportPath i1 ∈ Imports file' ∧
  (GoImportPath i2 ∈ Imports file' ↔
     GoImportPath i2 ∈ Imports file ∨ GoImportPath i2 = GoImportPath i1) ∧
  GoImportPath i1 ∈ GoImportPath <$> vals ∧
  GoImportPath i2 ∈ GoImportPath <$> vals.
Proof.
  intros Hgo Hparse Hj Hd1 Hd2 Hm file' vals.
  split; [|split; [done|]].
  - unfold AddImports, addImportsInGo, parseImportsFile. rewrite Hgo. simpl.
    rewrite Hparse, Hd1. simpl. rewrite Hd2. simpl.
    unfold printImportsFile. simpl. rewrite Hgo. simpl.
    unfold addImportsInJson. simpl. rewrite Hj. simpl. rewrite Hm. done.
  - split; [apply elem_of_AddImport; by right|].
    split; [apply elem_of_AddImport|].
    split; apply batch_keys_in_descriptor; set_solver.
Qed.

(** ** Adding the same import twice *)

Lemma AddImport_idemp file path :
  AddImport (AddImport file path) path = AddImport file path.
Proof.
  unfold AddImport at 1. rewrite decide_True; [done|].
  apply elem_of_AddImport. by right.
Qed.

Lemma listExisting_snoc l e :
  listExisting (l ++ [e]) = <[GoImportPath e := e]> (listExisting l).
Proof. unfold listExisting. by rewrite foldl_app. Qed.

Lemma listExisting_lookup l k v :
  NoDup (GoImportPath <$> l) →
  listExisting l !! k = Some v ↔ v ∈ l ∧ GoImportPath v = k.
Proof.
  induction l as [|e l IH] using rev_ind; intros Hnd.
  - unfold listExisting; simpl. rewrite lookup_empty, elem_of_nil. naive_solver.
  - rewrite fmap_app in Hnd. apply NoDup_app in Hnd as (Hl & Hdis & _).
    rewrite listExisting_snoc, lookup_insert, elem_of_app, list_elem_of_singleton.
    case_decide as Hk.
    + split; [intros [= <-]; auto|].
      intros [[Hin | ->] Hv]; [|done]. exfalso.
      apply (Hdis k); [|simpl; rewrite Hk; by left].
      apply list_elem_of_fmap. by exists v.
    + rewrite IH by done. naive_solver.
Qed.

(** Listing the values of a keyed map by key gives the map back, in
    whatever order the values come. *)
Lemma listExisting_rangeValues rnd m : keyed m → listExisting (rangeValues rnd m) = m.
Proof.
  intros Hm. apply map_eq. intros k. apply option_eq. intros v.
  rewrite listExisting_lookup by by apply keyed_rangeValues_NoDup.
  rewrite elem_of_rangeValues. split.
  - intros [[k' Hv] Hk]. by rewrite <-Hk, (Hm _ _ Hv).
  - intros Hv. split; [by exists k|]. by apply Hm.
Qed.

Lemma mergeImports_twice m i : mergeImports m [i; i] = mergeImports m [i].
Proof. unfold mergeImports. cbn [foldl]. apply mergeImport_idemp. Qed.

Lemma addImportsInGo_single p ignoreError i w file w' :
  parseImportsFile p w = inl file →
  addImportsInGo p ignoreError [i] w = (None, w') →
  ∃ file' wm,
    (file' = file ∨ file' = AddImport file (GoImportPath i)) ∧
    ((AddDependency i (deps w)).1 = None → file' = AddImport file (GoImportPath i)) ∧
    printImportsFile p file' wm = (None, w') ∧
    importsGo wm = importsGo w ∧ flogoJson wm = flogoJson w.
Proof.
  intros Hparse. unfold addImportsInGo. rewrite Hparse. simpl.
  destruct (AddDependency i (deps w)) as [[e|] d] eqn:E; simpl.
  - destruct ignoreError; simpl; [|done]. intros Hp.
    eexists file, _. split; [by left|]. split; [done|]. split; [exact Hp|]. done.
  - intros Hp. eexists _, _. split; [by right|]. split; [done|]. split; [exact Hp|]. done.
Qed.

(** C6. Adding the same import value twice gives what adding it once gives.
    Twice in one batch: the descriptor side returns the same result, and the
    tree printed to [imports.go] is the same when both resolutions succeed.
    An import whose canonical form equals that of the entry stored under its
    key leaves the map as it is. In two calls that both succeed, when the
    parser, the decoder and the import parser read back what the first call
    wrote: the second call leaves [imports.go] as the first one did, and
    writes to [flogo.json] the same entries (possibly in another order) and
    the same other fields. *)
Theorem add_same_import_twice p rnd ignoreError i :
  (∀ w, addImportsInJson p rnd ignoreError [i; i] w =
        addImportsInJson p rnd ignoreError [i] w) ∧
  (∀ file w d1 d2,
     AddDependency i (deps w) = (None, d1) →
     AddDependency i d1 = (None, d2) →
     (addImportsLoop ignoreError [i; i] file w).1 =
     (addImportsLoop ignoreError [i] file w).1) ∧
  (∀ m val,
     m !! GoImportPath i = Some val →
     CanonicalImport i = CanonicalImport val →
     mergeImport m i = m) ∧
  (∀ rnd2 w w1 w2 file0 c0 d1,
     parseImportsFile p w = inl file0 →
     descriptor p w = Some c0 →
     AddDependency i (deps w) = (None, d1) →
     AddImports p rnd ignoreError [i] w = (None, w1) →
     AddImports p rnd2 ignoreError [i] w1 = (None, w2) →
     let file1 := AddImport file0 (GoImportPath i) in
     let c1 := updatedDescriptor rnd c0 [i] in
     parser_ParseFile (printer_Fprint file1) = inl file1 →
     (∀ s, json_MarshalIndent c1 = inl s → decodeDescriptor s = c1) →
     (ParseImports (CfgImports c1)).1 = rangeValues rnd (mergedImports c0 [i]) →
     importsGo w2 = importsGo w1 ∧
     ∃ c2 s2,
       flogoJson w2 = Regular true s2 ∧ json_MarshalIndent c2 = inl s2 ∧
       CfgImports c2 ≡ₚ CfgImports c1 ∧ CfgOther c2 = CfgOther c1).
Proof.
  split; [|split; [|split]].
  - intros w. unfold addImportsInJson, updatedDescriptor, mergedImports.
    destruct (readFile _ (flogoJson w)) as [data|e]; [|done].
    by rewrite mergeImports_twice.
  - intros file w d1 d2 Hd1 Hd2. simpl. rewrite Hd1. simpl. rewrite Hd2. simpl.
    by rewrite AddImport_idemp.
  - intros m val. apply mergeImport_same_canonical.
  - intros rnd2 w w1 w2 file0 c0 d1 Hparse Hc0 Hd1 Hcall1 Hcall2 file1 c1 Hgo Hjson Hcanon.
    (* the first call *)
    unfold AddImports in Hcall1.
    destruct (addImportsInGo p ignoreError [i] w) as [[e|] wg] eqn:Eg; [done|].
    destruct (addImportsInGo_single p ignoreError i w file0 wg Hparse Eg)
      as (f & wm & _ & Hf & Hprint & _ & Hjm).
    rewrite Hd1 in Hf. specialize (Hf eq_refl). subst f. fold file1 in Hprint.
    destruct (printImportsFile_twice p file1 wm wg Hprint) as [_ Hwg].
    assert (flogoJson wg = flogoJson w) as Hjg.
    { rewrite <-Hjm. replace wg with (printImportsFile p file1 wm).2 by by rewrite Hprint.
      apply printImportsFile_flogoJson. }
    apply addImportsInJson_success in Hcall1 as (data & s1 & Hr & Hm1 & ->).
    unfold descriptor in Hc0. rewrite <-Hjg, Hr in Hc0. injection Hc0 as <-.
    fold c1 in Hm1.
    (* the second call *)
    unfold AddImports in Hcall2.
    set (w1 := set_flogoJson (Regular true s1) wg) in *.
    assert (parseImportsFile p w1 = inl file1) as Hparse1.
    { unfold parseImportsFile, w1. simpl. rewrite Hwg. simpl. exact Hgo. }
    destruct (addImportsInGo p ignoreError [i] w1) as [[e|] wg2] eqn:Eg2; [done|].
    destruct (addImportsInGo_single p ignoreError i w1 file1 wg2 Hparse1 Eg2)
      as (f & wm2 & Hf & _ & Hprint2 & Hgm2 & Hjm2).
    assert (f = file1) as ->.
    { destruct Hf as [-> | ->]; [done|]. apply AddImport_idemp. }
    assert (importsGo wg2 = importsGo w1 ∧ flogoJson wg2 = flogoJson w1) as [Hg2 Hj2].
    { replace wg2 with (printImportsFile p file1 wm2).2 by by rewrite Hprint2.
      rewrite printImportsFile_flogoJson, Hjm2. split; [|done].
      unfold printImportsFile. rewrite Hgm2. unfold w1. simpl. rewrite Hwg. done. }
    apply addImportsInJson_success in Hcall2 as (data2 & s2 & Hr2 & Hm2 & ->).
    split; [done|].
    rewrite Hj2 in Hr2. unfold w1 in Hr2. simpl in Hr2. injection Hr2 as <-.
    rewrite (Hjson s1 Hm1) in Hm2.
    eexists _, s2. split; [done|]. split; [exact Hm2|].
    split; [|done]. unfold updatedDescriptor at 1. simpl.
    unfold mergedImports at 1. rewrite Hcanon.
    rewrite listExisting_rangeValues by apply keyed_mergedImports.
    unfold mergedImports.
    change (mergeImports (mergeImports ?m [i]) [i]) with (mergeImports m [i; i]).
    rewrite mergeImports_twice.
    apply fmap_Permutation. by rewrite !rangeValues_Permutation.
Qed.

(** ** More on the Go side *)


Lemma addImportsLoop_ignore imports file w :
  ∃ file', (addImportsLoop true imports file w).1 = inl file'.
Proof.
  revert file w. induction imports as [|i rest IH]; intros file w; simpl; [by eexists|].
  destruct (AddDependency i (deps w)) as [[e|] d]; apply IH.
Qed.

(** X3. In ignore mode no resolution failure makes the Go side fail: when
    [imports.go] parses and is writable, [addImportsInGo] returns no
    error, whatever the dependency manager answers. *)
Theorem addImportsInGo_ignore_mode_succeeds p imports w src file :
  importsGo w = Regular true src →
  parser_ParseFile src = inl file →
  (addImportsInGo p true imports w).1 = None.
Proof.
  intros Hgo Hparse. unfold addImportsInGo, parseImportsFile. rewrite Hgo. simpl.
  rewrite Hparse.
  destruct (addImportsLoop_ignore imports file w) as [file' Hl].
  pose proof (addImportsLoop_files true imports file w) as (_ & Hg).
  destruct (addImportsLoop true imports file w) as [r w1]; simpl in *. subst r.
  unfold printImportsFile. rewrite Hg, Hgo. done.
Qed.

(** X4. The loop of [addImportsInGo] keeps the package clause and every
    import that was in the tree, and adds nothing but keys of the batch. *)
Theorem addImportsLoop_tree ignoreError imports file w file' :
  (addImportsLoop ignoreError imports file w).1 = inl file' →
  PkgName file' = PkgName file ∧
  (∀ x, x ∈ Imports file → x ∈ Imports file') ∧
  (∀ x, x ∈ Imports file' →
        x ∈ Imports file ∨ ∃ i, i ∈ imports ∧ x = GoImportPath i).
Proof.
  revert file w. induction imports as [|i rest IH]; intros file w; simpl.
  - intros [= ->]. split; [done|]. split; [done|]. by left.
  - destruct (AddDependency i (deps w)) as [[e|] d].
    + destruct ignoreError; [|done]. intros (Hn & Hold & Hnew)%IH.
      split; [done|]. split; [done|]. intros x [?|(j & Hj & ->)]%Hnew; [by left|].
      right. exists j. split; [by right|done].
    + intros (Hn & Hold & Hnew)%IH. split; [|split].
      * rewrite Hn. unfold AddImport. by case_decide.
      * intros x Hx. apply Hold, elem_of_AddImport. by left.
      * intros x [[?| ->]%elem_of_AddImport|(j & Hj & ->)]%Hnew.
        -- by left.
        -- right. exists i. split; [by left|done].
        -- right. exists j. split; [by right|done].
Qed.

(** X5. When the loop runs to its end in strict mode, every import of the
    batch has been resolved and its key is in the tree, and nothing has been
    printed on the console. *)
Theorem addImportsLoop_strict_complete imports file w file' :
  (addImportsLoop false imports file w).1 = inl file' →
  (∀ i, i ∈ imports → GoImportPath i ∈ Imports file') ∧
  console (addImportsLoop false imports file w).2 = console w.
Proof.
  revert file w. induction imports as [|i rest IH]; intros file w; simpl.
  - intros _. split; [|done]. intros i Hi. by apply elem_of_nil in Hi.
  - destruct (AddDependency i (deps w)) as [[e|] d]; [done|].
    intros Hl. destruct (IH _ _ Hl) as [Hkeys Hcon]. split; [|done].
    intros j [->|Hj]%elem_of_cons; [|by apply Hkeys].
    destruct (addImportsLoop_tree _ _ _ _ _ Hl) as (_ & Hold & _).
    apply Hold, elem_of_AddImport. by right.
Qed.

(** X6. When the loop returns a tree, in either mode, every import of the
    batch has been offered to the dependency manager, in order: failures in
    ignore mode do not stop later imports from being resolved. *)
Theorem addImportsLoop_offers_all ignoreError imports file w file' :
  (addImportsLoop ignoreError imports file w).1 = inl file' →
  deps (addImportsLoop ignoreError imports file w).2 =
    foldl (λ d i, (AddDependency i d).2) (deps w) imports.
Proof.
  revert file w. induction imports as [|i rest IH]; intros file w; simpl; [done|].
  destruct (AddDependency i (deps w)) as [[e|] d] eqn:E; simpl.
  - destruct ignoreError; [|done]. intros Hl. by rewrite (IH _ _ Hl).
  - intros Hl. by rewrite (IH _ _ Hl).
Qed.

(** X7. A read-only [imports.go] makes [addImportsInGo] fail only at the
    end: the error is the one the printer returns, the file is left as it
    was, and the dependency manager has by then processed the whole batch. *)
Theorem addImportsInGo_read_only p ignoreError imports w src file file' :
  importsGo w = Regular false src →
  parser_ParseFile src = inl file →
  (addImportsLoop ignoreError imports file w).1 = inl file' →
  (addImportsInGo p ignoreError imports w).1 = Some printer_Fprint_nil ∧
  importsGo (addImportsInGo p ignoreError imports w).2 = Regular false src ∧
  deps (addImportsInGo p ignoreError imports w).2 =
    foldl (λ d i, (AddDependency i d).2) (deps w) imports.
Proof.
  intros Hgo Hparse Hl.
  pose proof (addImportsLoop_offers_all _ _ _ _ _ Hl) as Hd.
  pose proof (addImportsLoop_files ignoreError imports file w) as (_ & Hg).
  unfold addImportsInGo, parseImportsFile. rewrite Hgo. simpl. rewrite Hparse.
  destruct (addImportsLoop ignoreError imports file w) as [r w1]; simpl in *. subst r.
  unfold printImportsFile. rewrite Hg, Hgo. simpl. by rewrite Hg, Hgo.
Qed.

(** X8. [RemoveImports] changes nothing but [imports.go]: the descriptor,
    the state of the dependency manager and the console are as before. *)
Theorem RemoveImports_frame p keys w :
  let w' := (RemoveImports p keys w).2 in
  flogoJson w' = flogoJson w ∧ deps w' = deps w ∧ console w' = console w ∧
  srcDirNode w' = srcDirNode w ∧ goMod w' = goMod w.
Proof.
  unfold RemoveImports. destruct (parseImportsFile p w) as [file|e]; [|done].
  unfold printImportsFile. by destruct (writeFile _ _ _).
Qed.

(** X9. [RemoveImports] depends on the set of keys only, not on their order
    or number. *)
Theorem RemoveImports_key_set p keys keys' w :
  (∀ k, k ∈ keys ↔ k ∈ keys') →
  RemoveImports p keys w = RemoveImports p keys' w.
Proof.
  intros Hset. unfold RemoveImports. destruct (parseImportsFile p w) as [file|e]; [|done].
  rewrite !foldl_DeleteImport. do 2 f_equal.
  apply list_filter_iff. intros x. by rewrite Hset.
Qed.

(** ** More on the descriptor side *)

Lemma dom_listExisting l :
  dom (listExisting l) = list_to_set (GoImportPath <$> l).
Proof.
  induction l as [|e l IH] using rev_ind; [done|].
  rewrite listExisting_snoc, dom_insert_L, IH, fmap_app, list_to_set_app_L. simpl.
  set_solver.
Qed.

Lemma mergeImports_other m imports k :
  keyed m → k ∉ GoImportPath <$> imports → mergeImports m imports !! k = m !! k.
Proof.
  revert m. induction imports as [|i l IH]; intros m Hm Hk; simpl; [done|].
  rewrite fmap_cons, not_elem_of_cons in Hk. destruct Hk as [Hne Hk].
  rewrite IH by (done || by apply keyed_mergeImport).
  by apply mergeImport_other.
Qed.

(** X10. The keys of the import list written by a successful
    [addImportsInJson] are the keys the descriptor held before together with
    the keys of the batch: nothing is lost and nothing else appears. *)
Theorem addImportsInJson_key_set p rnd ignoreError imports w w' :
  addImportsInJson p rnd ignoreError imports w = (None, w') →
  ∃ vals other s,
    flogoJson w' = Regular true s ∧
    json_MarshalIndent (mkConfig (CanonicalImport <$> vals) other) = inl s ∧
    ∀ k, k ∈ GoImportPath <$> vals ↔
         k ∈ GoImportPath <$> manifestImports p w ∨ k ∈ GoImportPath <$> imports.
Proof.
  intros (data & s & Hr & Hm & ->)%addImportsInJson_success.
  exists (rangeValues rnd (mergedImports (decodeDescriptor data) imports)),
         (CfgOther (decodeDescriptor data)), s.
  split; [done|]. split; [done|]. intros k.
  rewrite keyed_rangeValues_dom by apply keyed_mergedImports.
  unfold mergedImports. rewrite dom_mergeImports by apply keyed_listExisting.
  rewrite dom_listExisting, elem_of_union, !elem_of_list_to_set.
  unfold manifestImports, descriptor. rewrite Hr. tauto.
Qed.

(** X11. An entry of the descriptor whose key is not a key of the batch is
    carried over to the merged map as it was read. *)
Theorem mergedImports_untouched (appDescriptor : Config Other) imports k :
  k ∉ GoImportPath <$> imports →
  mergedImports appDescriptor imports !! k =
  listExisting (ParseImports (CfgImports appDescriptor)).1 !! k.
Proof.
  intros Hk. unfold mergedImports. apply mergeImports_other; [|done].
  apply keyed_listExisting.
Qed.

(** X12. When the descriptor lists the same key more than once, the last of
    these entries is the one that is kept. *)
Theorem listExisting_last_wins l1 e l2 :
  GoImportPath e ∉ GoImportPath <$> l2 →
  listExisting (l1 ++ e :: l2) !! GoImportPath e = Some e.
Proof.
  induction l2 as [|x l2 IH] using rev_ind; intros Hk.
  - rewrite listExisting_snoc. apply lookup_insert_eq.
  - rewrite fmap_app, not_elem_of_app in Hk. destruct Hk as [Hk Hx].
    rewrite app_comm_cons, app_assoc, listExisting_snoc.
    rewrite lookup_insert_ne; [by apply IH|].
    intros E. apply Hx. simpl. rewrite E. by left.
Qed.

(** X13. The order in which the runtime ranges over the map changes the
    order of the import list written and nothing else: two successful runs
    of [addImportsInJson] on the same world and batch, whatever their
    iteration orders, write descriptors with the same other fields and the
    same import entries up to order. *)
Theorem written_entries_any_order p rnd1 rnd2 ignoreError imports w w1 w2 :
  addImportsInJson p rnd1 ignoreError imports w = (None, w1) →
  addImportsInJson p rnd2 ignoreError imports w = (None, w2) →
  ∃ c1 c2 s1 s2,
    flogoJson w1 = Regular true s1 ∧ json_MarshalIndent c1 = inl s1 ∧
    flogoJson w2 = Regular true s2 ∧ json_MarshalIndent c2 = inl s2 ∧
    CfgImports c1 ≡ₚ CfgImports c2 ∧ CfgOther c1 = CfgOther c2.
Proof.
  intros (data & s1 & Hr & Hm1 & ->)%addImportsInJson_success
         (data' & s2 & Hr' & Hm2 & ->)%addImportsInJson_success.
  rewrite Hr in Hr'. injection Hr' as <-.
  eexists _, _, s1, s2. split; [done|]. split; [exact Hm1|].
  split; [done|]. split; [exact Hm2|]. split; [|done].
  unfold updatedDescriptor. simpl. apply fmap_Permutation.
  by rewrite !rangeValues_Permutation.
Qed.

(** X15. Key-set convergence: after an [AddImports] in strict mode that
    returns no error, the key of every import of the batch is in the tree
    printed to [imports.go] and among the keys of the import list written to
    [flogo.json]. *)
Theorem AddImports_strict_key_sets p rnd imports w w' :
  AddImports p rnd false imports w = (None, w') →
  ∃ file' vals other s,
    importsGo w' = Regular true (printer_Fprint file') ∧
    flogoJson w' = Regular true s ∧
    json_MarshalIndent (mkConfig (CanonicalImport <$> vals) other) = inl s ∧
    ∀ i, i ∈ imports →
         GoImportPath i ∈ Imports file' ∧ GoImportPath i ∈ GoImportPath <$> vals.
Proof.
  unfold AddImports.
  destruct (addImportsInGo p false imports w) as [[e|] w1] eqn:Eg; [done|].
  intros (data & s & Hr & Hm & ->)%addImportsInJson_success.
  revert Eg. unfold addImportsInGo.
  destruct (parseImportsFile p w) as [file|e]; [|done].
  destruct (addImportsLoop false imports file w) as [[file'|e] w0] eqn:El; [|done].
  intros Hprint. destruct (printImportsFile_twice p file' w0 w1 Hprint) as [_ Hgo].
  exists file', (rangeValues rnd (mergedImports (decodeDescriptor data) imports)),
         (CfgOther (decodeDescriptor data)), s.
  split; [done|]. split; [done|]. split; [done|].
  intros i Hi. split.
  - apply (addImportsLoop_strict_complete imports file w file'); [by rewrite El|done].
  - by apply batch_keys_in_descriptor.
Qed.

(** ** Validation and the executable *)

(** X16. [Validate] accepts a project exactly when none of [flogo.json],
    [src], [src/imports.go] and [src/go.mod] is reported missing. *)
Theorem Validate_ok_iff p w :
  Validate p w = None ↔
  flogoJson w ≠ NotExist ∧ srcDirNode w ≠ NotExist ∧
  importsGo w ≠ NotExist ∧ goMod w ≠ NotExist.
Proof.
  unfold Validate.
  destruct (flogoJson w), (srcDirNode w), (importsGo w), (goMod w); simpl;
    split; (done || intros (?&?&?&?); done).
Qed.

Lemma AddImports_unreadable_descriptor p rnd ignoreError imports w :
  flogoJson w = NotExist ∨ flogoJson w = Denied →
  ∃ err, (AddImports p rnd ignoreError imports w).1 = Some err.
Proof.
  intros Hj. unfold AddImports.
  pose proof (addImportsInGo_flogoJson p ignoreError imports w) as Hgo.
  destruct (addImportsInGo p ignoreError imports w) as [[e|] w1]; simpl in *; [by eexists|].
  unfold addImportsInJson. rewrite Hgo. destruct Hj as [-> | ->]; simpl; by eexists.
Qed.

(** X17. [Validate] only looks at whether the paths exist. A project whose
    [flogo.json] exists but cannot be opened passes [Validate], and
    [AddImports] on it fails all the same. *)
Theorem Validate_does_not_open p rnd ignoreError imports w :
  flogoJson w = Denied →
  srcDirNode w ≠ NotExist → importsGo w ≠ NotExist → goMod w ≠ NotExist →
  Validate p w = None ∧
  ∃ err, (AddImports p rnd ignoreError imports w).1 = Some err.
Proof.
  intros Hj Hs Hg Hm. split.
  - unfold Validate. rewrite Hj. simpl.
    destruct (srcDirNode w), (importsGo w), (goMod w); done.
  - apply AddImports_unreadable_descriptor. by right.
Qed.

(** X18. The extension of the executable follows the target system: the
    environment variable [GOOS] when it is set, the host otherwise. *)
Theorem Executable_target GOOSENV p :
  let target := if decide (GOOSENV = "") then runtime_GOOS else GOOSENV in
  Executable GOOSENV p =
    filepath_Join (BinDir p)
      (Name p ++ (if decide (target = "windows") then ".exe" else "")).
Proof.
  unfold Executable, BinDir, Name. simpl.
  assert (∀ s : string, s ++ "" = s) as Hnil.
  { intros s. induction s as [|a s IH]; [done|].
    change (String a (s ++ "") = String a s). by rewrite IH. }
  repeat case_decide; subst; rewrite ?Hnil; naive_solver.
Qed.

(** ** Adding, then removing *)

Lemma DeleteImport_AddImport file path :
  path ∉ Imports file → DeleteImport (AddImport file path) path = file.
Proof.
  intros Hp. unfold AddImport. rewrite decide_False by done.
  unfold DeleteImport. destruct file as [name imps]; simpl in *. f_equal.
  rewrite filter_app. simpl. rewrite filter_cons_False, filter_nil, app_nil_r by auto.
  induction imps as [|x imps IH]; [done|].
  apply not_elem_of_cons in Hp as [Hne Hp].
  rewrite filter_cons_True by done. by rewrite IH.
Qed.

(** X19. Removal does not undo an addition. After a successful
    [AddImports] of an import that was not in [imports.go], [RemoveImports]
    of its key prints the tree as it was before the addition (when the parser
    reads back what was printed), while [flogo.json], which now lists the
    key, is left as the addition wrote it. *)
Theorem add_then_remove p rnd ignoreError i w w1 file0 d1 :
  parseImportsFile p w = inl file0 →
  GoImportPath i ∉ Imports file0 →
  AddDependency i (deps w) = (None, d1) →
  AddImports p rnd ignoreError [i] w = (None, w1) →
  parser_ParseFile (printer_Fprint (AddImport file0 (GoImportPath i))) =
    inl (AddImport file0 (GoImportPath i)) →
  ∃ w2 vals other s,
    RemoveImports p [GoImportPath i] w1 = (None, w2) ∧
    importsGo w2 = Regular true (printer_Fprint file0) ∧
    flogoJson w2 = Regular true s ∧ flogoJson w1 = Regular true s ∧
    json_MarshalIndent (mkConfig (CanonicalImport <$> vals) other) = inl s ∧
    GoImportPath i ∈ GoImportPath <$> vals.
Proof.
  intros Hparse Habs Hd1 Hcall Hback.
  unfold AddImports in Hcall.
  destruct (addImportsInGo p ignoreError [i] w) as [[e|] wg] eqn:Eg; [done|].
  destruct (addImportsInGo_single p ignoreError i w file0 wg Hparse Eg)
    as (f & wm & _ & Hf & Hprint & _ & _).
  rewrite Hd1 in Hf. specialize (Hf eq_refl). subst f.
  destruct (printImportsFile_twice p _ wm wg Hprint) as [_ Hwg].
  apply addImportsInJson_success in Hcall as (data & s & Hr & Hm & ->).
  set (w1 := set_flogoJson (Regular true s) wg).
  exists (set_importsGo (Regular true (printer_Fprint file0)) w1),
         (rangeValues rnd (mergedImports (decodeDescriptor data) [i])),
         (CfgOther (decodeDescriptor data)), s.
  split; [|split; [done|]; split; [done|]; split; [done|]; split; [done|]].
  - unfold RemoveImports, parseImportsFile. unfold w1 at 1. simpl. rewrite Hwg. simpl.
    rewrite Hback. simpl. rewrite DeleteImport_AddImport by done.
    unfold printImportsFile. unfold w1 at 1. simpl. rewrite Hwg. done.
  - apply batch_keys_in_descriptor. by left.
Qed.

(** X20. The descriptor side does not know which imports were skipped:
    after an [AddImports] that returns no error, in ignore mode as in strict
    mode, the key of every import of the batch is among the keys of the
    import list written to [flogo.json], whether or not it resolved. *)
Theorem AddImports_lists_whole_batch p rnd ignoreError imports w w' :
  AddImports p rnd ignoreError imports w = (None, w') →
  ∃ vals other s,
    flogoJson w' = Regular true s ∧
    json_MarshalIndent (mkConfig (CanonicalImport <$> vals) other) = inl s ∧
    ∀ i, i ∈ imports → GoImportPath i ∈ GoImportPath <$> vals.
Proof.
  unfold AddImports.
  destruct (addImportsInGo p ignoreError imports w) as [[e|] w1]; [done|].
  intros (data & s & Hr & Hm & ->)%addImportsInJson_success.
  exists (rangeValues rnd (mergedImports (decodeDescriptor data) imports)),
         (CfgOther (decodeDescriptor data)), s.
  split; [done|]. split; [done|]. intros i Hi. by apply batch_keys_in_descriptor.
Qed.

End Facts.

(** * The properties at work on the concrete environment *)

Import Demo.

(** Decidable facts about concrete data are settled by evaluation. *)
Ltac by_compute := apply (bool_decide_unpack _); vm_compute; exact I.


Lemma parse_failure_aborts_witness :
  ∃ err, parseImportsFile project world_bad_go = inr err ∧
    AddImports project [] true [i_log] world_bad_go = (Some err, world_bad_go) ∧
    RemoveImports project [core] world_bad_go = (Some err, world_bad_go).
Proof.
  eexists. split; [vm_compute; reflexivity|].
  apply (parse_failure_aborts project [] true [i_log] [core] world_bad_go).
  vm_compute. reflexivity.
Defined.



Lemma mergeImport_alias_carry_over_witness :
  let current := NewFlogoImport "m" "" "v1" "a" in
  let i := NewFlogoImport "m" "" "v2" "" in
  CanonicalImport i ≠ CanonicalImport current ∧
  mergeImport {[GoImportPath current := current]} i !! GoImportPath i =
    Some (NewFlogoImport "m" "" "v2" "a").
Proof.
  intros current i.
  assert (CanonicalImport i ≠ CanonicalImport current) as Hc by (vm_compute; discriminate).
  split; [exact Hc|].
  refine (proj2 (mergeImport_alias_carry_over {[GoImportPath current := current]}
                   i current _ Hc) eq_refl eq_refl).
  vm_compute. reflexivity.
Defined.

Lemma addImportsInJson_keys_unique_witness :
  let w' := (addImportsInJson project [2; 0] false [i_log; i_rest] world0).2 in
  ∃ vals other s,
    flogoJson w' = Regular true s ∧
    json_MarshalIndent (mkConfig (CanonicalImport <$> vals) other) = inl s ∧
    NoDup (GoImportPath <$> vals).
Proof.
  apply (addImportsInJson_keys_unique project [2; 0] false [i_log; i_rest] world0).
  vm_compute. reflexivity.
Defined.

(** C2, as stated, fails: in ignore mode the call succeeds, the import that
    failed to resolve stays out of [imports.go], yet its key is in the
    import list written to [flogo.json]. *)
Lemma AddImports_ignore_mode_records_failed_import :
  let r := AddImports project [] true [i_log; i_bad] world0 in
  (AddDependency i_log (deps world0)).1 = None ∧
  (AddDependency i_bad (AddDependency i_log (deps world0)).2).1 ≠ None ∧
  r.1 = None ∧
  GoImportPath i_bad ∉ sourceImports project r.2 ∧
  ¬ (GoImportPath i_bad ∉ GoImportPath <$> manifestImports project r.2).
Proof.
  split; [vm_compute; reflexivity|].
  split; [vm_compute; discriminate|].
  split; [vm_compute; reflexivity|].
  split; by_compute.
Qed.

Lemma AddImports_ignore_mode_witness :
  ∃ s file',
    AddImports project [] true [i_log; i_bad] world0 =
      (None, mkWorld (Regular true s) (srcDirNode world0)
                     (Regular true (printer_Fprint file')) (goMod world0)
                     ["github.com/project-flogo/contrib"] [Warning i_bad]) ∧
    GoImportPath i_log ∈ Imports file' ∧
    GoImportPath i_bad ∈
      GoImportPath <$> rangeValues [] (mergedImports (mkConfig [core] "app") [i_log; i_bad]).
Proof.
  eexists _, _.
  edestruct (AddImports_ignore_mode project [] i_log i_bad world0)
    as (Hcall & _ & Hsrc & _ & _ & Hbad).
  - reflexivity.
  - vm_compute. reflexivity.
  - reflexivity.
  - vm_compute. reflexivity.
  - vm_compute. reflexivity.
  - vm_compute. reflexivity.
  - split; [exact Hcall|]. split; [exact Hsrc|exact Hbad].
Defined.

Lemma addImportsInJson_failure_modes_witness :
  (∃ err, addImportsInJson project [] false [i_log] world_no_json = (Some err, world_no_json)) ∧
  (∃ err, (AddImports project [] false [i_log] world_no_json).1 = Some err) ∧
  (∃ e, parseImport "@v1.0.0" = inr e) ∧
  ∃ s, addImportsInJson project [] false [i_log] world_bad_entry =
         (None, set_flogoJson (Regular true s) world_bad_entry) ∧
       json_MarshalIndent (updatedDescriptor [] (mkConfig [core] "app") [i_log]) = inl s.
Proof.
  destruct (addImportsInJson_failure_modes project [] false [i_log] world_no_json)
    as [Hmissing _].
  destruct (Hmissing (or_introl eq_refl)) as [H1 H2].
  split; [exact H1|]. split; [exact H2|].
  split; [eexists; vm_compute; reflexivity|].
  destruct (addImportsInJson_failure_modes project [] false [i_log] world_bad_entry)
    as [_ Hbad].
  eexists. split; [|vm_compute; reflexivity].
  eapply (Hbad parseImport [] "@v1.0.0" [core]).
  - reflexivity.
  - vm_compute. reflexivity.
  - reflexivity.
  - vm_compute. reflexivity.
  - vm_compute. reflexivity.
Defined.

(** C9, as stated, fails: [AddImports] succeeds on a descriptor file with
    a key that [app.Config] does not declare, and the file it writes no
    longer has that key. *)
Lemma AddImports_drops_undeclared_key :
  let r := AddImports project [] false [i_log] world_extra_key in
  r.1 = None ∧
  (∃ before, flogoJson world_extra_key = Regular true before ∧
             "#owner=alice" ∈ lines before) ∧
  (∃ after, flogoJson r.2 = Regular true after ∧
            ¬ ("#owner=alice" ∈ lines after)).
Proof.
  split; [vm_compute; reflexivity|]. split.
  - eexists. split; [reflexivity|]. by_compute.
  - eexists. split; [vm_compute; reflexivity|]. by_compute.
Qed.

Lemma declared_fields_preserved_witness :
  let w' := (AddImports project [1] false [i_log; i_rest] world_extra_key).2 in
  descriptor project world_extra_key = Some config0 ∧
  (∃ s, flogoJson w' = Regular true s ∧
        json_MarshalIndent (updatedDescriptor [1] config0 [i_log; i_rest]) = inl s) ∧
  (∃ c', descriptor project w' = Some c' ∧ CfgOther c' = CfgOther config0) ∧
  descriptor project (RemoveImports project [core] world_extra_key).2 = Some config0.
Proof.
  intros w'. split; [vm_compute; reflexivity|].
  apply (declared_fields_preserved project [1] false [i_log; i_rest] [core]
           world_extra_key w' config0).
  - vm_compute. reflexivity.
  - vm_compute. reflexivity.
  - intros s [= <-]. vm_compute. reflexivity.
Defined.


Lemma add_same_import_twice_witness :
  let w1 := (AddImports project [] false [i_log] world0).2 in
  let w2 := (AddImports project [1] false [i_log] w1).2 in
  addImportsInJson project [] false [i_log; i_log] world0 =
    addImportsInJson project [] false [i_log] world0 ∧
  (AddImports project [] false [i_log] world0).1 = None ∧
  (AddImports project [1] false [i_log] w1).1 = None ∧
  importsGo w2 = importsGo w1 ∧
  ∃ c2 s2,
    flogoJson w2 = Regular true s2 ∧ json_MarshalIndent c2 = inl s2 ∧
    CfgImports c2 ≡ₚ CfgImports (updatedDescriptor [] config0 [i_log]) ∧
    CfgOther c2 = CfgOther config0.
Proof.
  intros w1 w2.
  destruct (add_same_import_twice project [] false i_log) as (Hbatch & _ & _ & Hcalls).
  split; [exact (Hbatch world0)|].
  split; [vm_compute; reflexivity|]. split; [vm_compute; reflexivity|].
  eapply (Hcalls [1] world0 w1 w2 (mkGoFile "main" [core]) config0).
  - vm_compute. reflexivity.
  - vm_compute. reflexivity.
  - vm_compute. reflexivity.
  - vm_compute. reflexivity.
  - vm_compute. reflexivity.
  - vm_compute. reflexivity.
  - intros s [= <-]. vm_compute. reflexivity.
  - vm_compute. reflexivity.
Defined.

(** ** The further properties on the concrete environment *)


Lemma addImportsInGo_ignore_mode_succeeds_witness :
  (addImportsInGo project true [i_bad; i_log; i_bad] world0).1 = None.
Proof.
  eapply (addImportsInGo_ignore_mode_succeeds project [i_bad; i_log; i_bad] world0).
  - reflexivity.
  - vm_compute. reflexivity.
Defined.

Lemma addImportsLoop_tree_witness :
  let file := mkGoFile "main" [core] in
  ∃ file',
    (addImportsLoop true [i_bad; i_log] file world0).1 = inl file' ∧
    PkgName file' = "main" ∧
    (∀ x, x ∈ Imports file → x ∈ Imports file') ∧
    (∀ x, x ∈ Imports file' →
          x ∈ Imports file ∨ ∃ i, i ∈ [i_bad; i_log] ∧ x = GoImportPath i).
Proof.
  intros file. eexists.
  assert ((addImportsLoop true [i_bad; i_log] file world0).1 = inl _) as Hl
    by (vm_compute; reflexivity).
  split; [exact Hl|].
  exact (addImportsLoop_tree true [i_bad; i_log] file world0 _ Hl).
Defined.

Lemma addImportsLoop_strict_complete_witness :
  let file := mkGoFile "main" [core] in
  ∃ file',
    (addImportsLoop false [i_log; i_rest] file world0).1 = inl file' ∧
    (∀ i, i ∈ [i_log; i_rest] → GoImportPath i ∈ Imports file') ∧
    console (addImportsLoop false [i_log; i_rest] file world0).2 = console world0.
Proof.
  intros file. eexists.
  assert ((addImportsLoop false [i_log; i_rest] file world0).1 = inl _) as Hl
    by (vm_compute; reflexivity).
  split; [exact Hl|].
  exact (addImportsLoop_strict_complete [i_log; i_rest] file world0 _ Hl).
Defined.

Lemma addImportsLoop_offers_all_witness :
  let file := mkGoFile "main" [core] in
  ∃ file',
    (addImportsLoop true [i_bad; i_log] file world0).1 = inl file' ∧
    deps (addImportsLoop true [i_bad; i_log] file world0).2 =
      foldl (λ d i, (AddDependency i d).2) (deps world0) [i_bad; i_log].
Proof.
  intros file. eexists.
  assert ((addImportsLoop true [i_bad; i_log] file world0).1 = inl _) as Hl
    by (vm_compute; reflexivity).
  split; [exact Hl|].
  exact (addImportsLoop_offers_all true [i_bad; i_log] file world0 _ Hl).
Defined.

Lemma addImportsInGo_read_only_witness :
  (addImportsInGo project false [i_log] world_read_only_go).1 =
    Some printer_Fprint_nil ∧
  importsGo (addImportsInGo project false [i_log] world_read_only_go).2 =
    importsGo world_read_only_go ∧
  deps (addImportsInGo project false [i_log] world_read_only_go).2 =
    foldl (λ d i, (AddDependency i d).2) (deps world_read_only_go) [i_log].
Proof.
  eapply (addImportsInGo_read_only project false [i_log] world_read_only_go).
  - reflexivity.
  - vm_compute. reflexivity.
  - vm_compute. reflexivity.
Defined.

Lemma RemoveImports_key_set_witness :
  RemoveImports project [core; "x"; core] world0 = RemoveImports project ["x"; core] world0.
Proof.
  apply (RemoveImports_key_set project [core; "x"; core] ["x"; core] world0).
  intros k. rewrite !elem_of_cons. tauto.
Defined.

Lemma addImportsInJson_key_set_witness :
  let w' := (addImportsInJson project [1] false [i_rest] world0).2 in
  ∃ vals other s,
    flogoJson w' = Regular true s ∧
    json_MarshalIndent (mkConfig (CanonicalImport <$> vals) other) = inl s ∧
    ∀ k, k ∈ GoImportPath <$> vals ↔
         k ∈ GoImportPath <$> manifestImports project world0 ∨
         k ∈ GoImportPath <$> [i_rest].
Proof.
  apply (addImportsInJson_key_set project [1] false [i_rest] world0).
  vm_compute. reflexivity.
Defined.

Lemma mergedImports_untouched_witness :
  mergedImports config0 [i_log; i_rest] !! core =
  listExisting (ParseImports (CfgImports config0)).1 !! core.
Proof.
  apply (mergedImports_untouched config0 [i_log; i_rest] core). by_compute.
Defined.

Lemma listExisting_last_wins_witness :
  let old := NewFlogoImport "m" "" "v1" "" in
  let new := NewFlogoImport "m" "" "v2" "" in
  listExisting ([old] ++ new :: [i_log]) !! GoImportPath new = Some new.
Proof.
  intros old new. apply (listExisting_last_wins [old] new [i_log]). by_compute.
Defined.

Lemma written_entries_any_order_witness :
  let w1 := (addImportsInJson project [] false [i_log; i_rest] world0).2 in
  let w2 := (addImportsInJson project [2; 1] false [i_log; i_rest] world0).2 in
  flogoJson w1 ≠ flogoJson w2 ∧
  ∃ c1 c2 s1 s2,
    flogoJson w1 = Regular true s1 ∧ json_MarshalIndent c1 = inl s1 ∧
    flogoJson w2 = Regular true s2 ∧ json_MarshalIndent c2 = inl s2 ∧
    CfgImports c1 ≡ₚ CfgImports c2 ∧ CfgOther c1 = CfgOther c2.
Proof.
  intros w1 w2. split; [by_compute|].
  apply (written_entries_any_order project [] [2; 1] false [i_log; i_rest] world0 w1 w2).
  - vm_compute. reflexivity.
  - vm_compute. reflexivity.
Defined.

Lemma AddImports_strict_key_sets_witness :
  let w' := (AddImports project [0; 1] false [i_log; i_rest] world0).2 in
  ∃ file' vals other s,
    importsGo w' = Regular true (printer_Fprint file') ∧
    flogoJson w' = Regular true s ∧
    json_MarshalIndent (mkConfig (CanonicalImport <$> vals) other) = inl s ∧
    ∀ i, i ∈ [i_log; i_rest] →
         GoImportPath i ∈ Imports file' ∧ GoImportPath i ∈ GoImportPath <$> vals.
Proof.
  apply (AddImports_strict_key_sets project [0; 1] [i_log; i_rest] world0).
  vm_compute. reflexivity.
Defined.

Lemma Validate_does_not_open_witness :
  Validate project world_denied_json = None ∧
  ∃ err, (AddImports project [] true [i_log] world_denied_json).1 = Some err.
Proof.
  apply (Validate_does_not_open project [] true [i_log] world_denied_json);
    [reflexivity | discriminate | discriminate | discriminate].
Defined.

Lemma add_then_remove_witness :
  let w1 := (AddImports project [] false [i_log] world0).2 in
  ∃ w2 vals other s,
    RemoveImports project [GoImportPath i_log] w1 = (None, w2) ∧
    importsGo w2 = Regular true (printer_Fprint (mkGoFile "main" [core])) ∧
    flogoJson w2 = Regular true s ∧ flogoJson w1 = Regular true s ∧
    json_MarshalIndent (mkConfig (CanonicalImport <$> vals) other) = inl s ∧
    GoImportPath i_log ∈ GoImportPath <$> vals.
Proof.
  eapply (add_then_remove project [] false i_log world0).
  - vm_compute. reflexivity.
  - by_compute.
  - vm_compute. reflexivity.
  - vm_compute. reflexivity.
  - vm_compute. reflexivity.
Defined.

Lemma AddImports_lists_whole_batch_witness :
  let w' := (AddImports project [2] true [i_bad; i_log; i_bad] world0).2 in
  ∃ vals other s,
    flogoJson w' = Regular true s ∧
    json_MarshalIndent (mkConfig (CanonicalImport <$> vals) other) = inl s ∧
    ∀ i, i ∈ [i_bad; i_log; i_bad] → GoImportPath i ∈ GoImportPath <$> vals.
Proof.
  apply (AddImports_lists_whole_batch project [2] true [i_bad; i_log; i_bad] world0).
  vm_compute. reflexivity.
Defined.
